(** * custom_start.c: a process entry point without the C runtime

    Shallow embedding of [_posts/_artifacts/linking/custom_start.c]:

<<
    int main();
    void call_exit(int code, int exit_syscall_num) {
        asm("mov %rsi, %rax;"
            "syscall;");
    }
    void _start() { call_exit(main(), SYS_exit); }
>>

    The two functions are embedded as state transformers over a small
    x86-64 machine: three registers, the status of the process and the
    chronological trace of everything that happened.  The inline assembly
    is kept as a list of instructions run by an interpreter.  The program
    logic [main] is only declared in the source, so it is a parameter.  The
    kernel and the constant [SYS_exit] of <sys/syscall.h> are outside the
    source too: they are gathered in a [Platform]. *)

From Stdlib Require Import ZArith List Bool Lia.
Import ListNotations.
Local Open Scope Z_scope.

(** ** C [int] values and 64-bit registers *)

Module CInt.

Definition int_min : Z := - 2 ^ 31.
Definition int_max : Z := 2 ^ 31 - 1.

(** The values a C [int] holds on x86-64. *)
Definition in_int (v : Z) : Prop := int_min <= v <= int_max.

(** Writing an [int] to a 32-bit register ([%edi], [%esi], [%eax]) stores
    its two's complement pattern and clears the upper half of the 64-bit
    register. *)
Definition to_reg (v : Z) : Z := v mod 2 ^ 32.

(** Reading the low half of a 64-bit register as a signed [int]. *)
Definition of_reg (r : Z) : Z :=
  let lo := r mod 2 ^ 32 in
  if lo <? 2 ^ 31 then lo else lo - 2 ^ 32.

End CInt.

Import CInt.

(** ** The machine *)

Inductive reg : Type := RAX | RDI | RSI.

Record Regs : Type := mkRegs { rax : Z; rdi : Z; rsi : Z }.

Definition get (r : reg) (rs : Regs) : Z :=
  match r with
  | RAX => rax rs
  | RDI => rdi rs
  | RSI => rsi rs
  end.

Definition set (r : reg) (v : Z) (rs : Regs) : Regs :=
  match r with
  | RAX => mkRegs v (rdi rs) (rsi rs)
  | RDI => mkRegs (rax rs) v (rsi rs)
  | RSI => mkRegs (rax rs) (rdi rs) v
  end.

(** System V AMD64 calling convention: the register of the n-th integer
    argument of a C call (only the first two are used here). *)
Definition sysv_arg (n : nat) : option reg :=
  match n with
  | O => Some RDI
  | S O => Some RSI
  | _ => None
  end.

(** Raw system-call convention of the [syscall] instruction: the register
    the kernel reads the call number from, and the one of its first
    argument. *)
Definition syscall_nr_reg : reg := RAX.
Definition syscall_arg1_reg : reg := RDI.

(** The instructions of the inline assembly. *)
Inductive instr : Type :=
| Mov (src dst : reg)     (* mov %src, %dst : 64-bit copy *)
| Syscall.                (* syscall *)

Inductive func : Type := F_main | F_call_exit.

(** What an execution leaves in the trace. *)
Inductive event : Type :=
| Call (f : func) (args : list Z)  (* a C call and the values of its arguments *)
| Effect (payload : Z)             (* an observable action of the program logic *)
| Ret (f : func) (v : option Z)    (* a C function returns, with its value if any *)
| Exec (i : instr)                 (* an instruction of the inline assembly runs *)
| Trap (nr arg1 : Z)               (* the kernel is entered: raw %rax and %rdi *)
| Death (st : Z)                   (* the process is destroyed; its exit status *)
| FellOff.                         (* [_start] returned although nothing called it *)

Inductive status : Type :=
| Running
| InMain            (* the program logic keeps control for ever *)
| Exited (st : Z)
| Undefined.

Record Machine : Type := mkMachine
  { regs : Regs; trace : list event; stat : status }.

(** The state in which the loader hands control to the entry symbol. *)
Definition loaded (rs : Regs) : Machine := mkMachine rs [] Running.

Definition log (e : event) (m : Machine) : Machine :=
  mkMachine (regs m) (trace m ++ [e]) (stat m).

Definition set_reg (r : reg) (v : Z) (m : Machine) : Machine :=
  mkMachine (set r v (regs m)) (trace m) (stat m).

Definition set_stat (s : status) (m : Machine) : Machine :=
  mkMachine (regs m) (trace m) s.

Definition running (m : Machine) : bool :=
  match stat m with
  | Running => true
  | _ => false
  end.

(** ** The platform: <sys/syscall.h> and the kernel *)

(** The answer of the kernel to a trap: it resumes the program after the
    [syscall] instruction with a result in [%rax], or it destroys the
    process. *)
Inductive reply : Type :=
| Resume (result : Z)
| Destroy (st : Z).

(** What the source takes from outside: [SYS_exit] is the constant of
    <sys/syscall.h>, [other_syscall] the kernel's service of every other
    call number, from the raw [%rax] and [%rdi]. *)
Record Platform : Type := mkPlatform
  { SYS_exit : Z;
    other_syscall : Z -> Z -> reply }.

(** Modelled from the spec: the platform's truncation of the exit status,
    which is the kernel's and not in the source.  A parent observes the low
    8 bits of the argument of the exit call. *)
Definition exit_status (arg1 : Z) : Z := Z.land arg1 255.

(** Modelled from the spec: the kernel's service of a trap, which is not in
    the source.  It dispatches on the call number, read as an [int] from
    the low half of [%rax]; servicing the exit call destroys the process,
    so that call does not come back. *)
Definition kernel (P : Platform) (nr arg1 : Z) : reply :=
  if of_reg nr =? SYS_exit P
  then Destroy (exit_status arg1)
  else other_syscall P nr arg1.

(** ** Running the inline assembly *)

(** One instruction.  A process that is not running executes nothing.
    ([syscall] also overwrites [%rcx] and [%r11], which the program never
    reads and the machine leaves out.) *)
Definition exec_instr (P : Platform) (i : instr) (m : Machine) : Machine :=
  if running m then
    match i with
    | Mov src dst => set_reg dst (get src (regs m)) (log (Exec i) m)
    | Syscall =>
        let nr := get syscall_nr_reg (regs m) in
        let a1 := get syscall_arg1_reg (regs m) in
        let m1 := log (Trap nr a1) (log (Exec i) m) in
        match kernel P nr a1 with
        | Resume result => set_reg RAX result m1
        | Destroy st => set_stat (Exited st) (log (Death st) m1)
        end
    end
  else m.

Fixpoint exec_asm (P : Platform) (code : list instr) (m : Machine) : Machine :=
  match code with
  | [] => m
  | i :: rest => exec_asm P rest (exec_instr P i m)
  end.

(** ** The program logic *)

(** [main] is opaque.  Called with the registers it finds, it either comes
    back with an [int], having performed some observable actions and left
    arbitrary values in the registers, or it never comes back. *)
Inductive MainBehaviour : Type :=
| MainReturns (effects : list Z) (clobbered : Regs) (v : Z)
| MainNeverReturns (effects : list Z).

Definition ProgramLogic : Type := Regs -> MainBehaviour.

Definition log_all (es : list event) (m : Machine) : Machine :=
  mkMachine (regs m) (trace m ++ es) (stat m).

(** The call [main()]: no argument is placed, the callee sees the registers
    as they are.  On return the value is in [%eax]. *)
Definition call_main (main : ProgramLogic) (m : Machine) : option Z * Machine :=
  if running m then
    let m1 := log (Call F_main []) m in
    match main (regs m1) with
    | MainReturns effects clobbered v =>
        let m2 := log_all (map Effect effects) m1 in
        let m3 := mkMachine (set RAX (to_reg v) clobbered) (trace m2) (stat m2) in
        (Some (of_reg (get RAX (regs m3))), log (Ret F_main (Some v)) m3)
    | MainNeverReturns effects =>
        (None, set_stat InMain (log_all (map Effect effects) m1))
    end
  else (None, m).

(** ** The two functions of the source *)

(** The body of [call_exit]: the two instructions of its [asm] statement. *)
Definition call_exit_asm : list instr := [Mov RSI RAX; Syscall].

(** A C call of a function with two [int] parameters: the caller places
    them by the calling convention and transfers control. *)
Definition place_arg (n : nat) (v : Z) (m : Machine) : Machine :=
  match sysv_arg n with
  | Some r => set_reg r (to_reg v) m
  | None => m
  end.

(** [void call_exit(int code, int exit_syscall_num)]: the call, the [asm]
    statement and, should the trap come back, the return to the caller. *)
Definition call_exit (P : Platform) (code exit_syscall_num : Z) (m : Machine)
  : Machine :=
  if running m then
    let m1 := place_arg 1 exit_syscall_num (place_arg 0 code m) in
    let m2 := log (Call F_call_exit [code; exit_syscall_num]) m1 in
    let m3 := exec_asm P call_exit_asm m2 in
    if running m3 then log (Ret F_call_exit None) m3 else m3
  else m.

(** [void _start() { call_exit(main(), SYS_exit); }].  Nothing called
    [_start], so returning from it is undefined. *)
Definition _start (P : Platform) (main : ProgramLogic) (m : Machine) : Machine :=
  match call_main main m with
  | (Some v, m1) =>
      let m2 := call_exit P v (SYS_exit P) m1 in
      if running m2 then set_stat Undefined (log FellOff m2) else m2
  | (None, m1) => m1
  end.

(** A whole execution: the loader transfers control to [_start]. *)
Definition run (P : Platform) (main : ProgramLogic) (boot : Regs) : Machine :=
  _start P main (loaded boot).

(** ** Observations on an execution *)

(** The exit status the parent of the process observes, once it is dead. *)
Definition observed_exit_status (m : Machine) : option Z :=
  match stat m with
  | Exited st => Some st
  | _ => None
  end.

Definition is_trap (e : event) : bool :=
  match e with Trap _ _ => true | _ => false end.

Definition is_death (e : event) : bool :=
  match e with Death _ => true | _ => false end.

Definition is_effect (e : event) : bool :=
  match e with Effect _ => true | _ => false end.

Definition is_call (f : func) (e : event) : bool :=
  match e, f with
  | Call F_main _, F_main => true
  | Call F_call_exit _, F_call_exit => true
  | _, _ => false
  end.

(** The instructions that ran, in order. *)
Fixpoint executed (tr : list event) : list instr :=
  match tr with
  | [] => []
  | Exec i :: rest => i :: executed rest
  | _ :: rest => executed rest
  end.

(** What the kernel was asked to service: for every trap, the call number
    and the first argument as the [int] values it reads. *)
Fixpoint serviced (tr : list event) : list (Z * Z) :=
  match tr with
  | [] => []
  | Trap nr a1 :: rest => (of_reg nr, of_reg a1) :: serviced rest
  | _ :: rest => serviced rest
  end.


(** [precedes p q tr seen]: every event of [tr] that satisfies [q] comes
    strictly after one that satisfies [p] ([seen] tells whether one came
    before [tr]). *)
Fixpoint precedes (p q : event -> bool) (tr : list event) (seen : bool) : bool :=
  match tr with
  | [] => true
  | e :: rest => (if q e then seen else true) && precedes p q rest (seen || p e)
  end.

(** ** The shape of the traces *)

(** The value of the C expression [main()]: what [_start] reads back from
    [%eax].  It is the returned value when that is an [int]. *)
Definition main_value (v : Z) : Z := of_reg (to_reg v).

(** The observable actions the program logic performs. *)
Definition main_effects (b : MainBehaviour) : list Z :=
  match b with
  | MainReturns effects _ _ => effects
  | MainNeverReturns effects => effects
  end.

(** The events of a run up to the return of the program logic. *)
Definition upto_return (effects : list Z) (v : Z) : list event :=
  Call F_main [] :: map Effect effects ++ [Ret F_main (Some v)].

(** The events [call_exit] adds up to the trap. *)
Definition upto_trap (code num : Z) : list event :=
  [Call F_call_exit [code; num]; Exec (Mov RSI RAX); Exec Syscall;
   Trap (to_reg num) (to_reg code)].

(** ** Sample platforms and program logics *)

(** Linux on x86-64: [SYS_exit] is 60; [exit_group] (231) also ends the
    process, [getpid] (39) answers, anything else is refused with
    [-ENOSYS]. *)
Definition linux_x86_64 : Platform :=
  mkPlatform 60
    (fun nr a1 =>
       if of_reg nr =? 231 then Destroy (exit_status a1)
       else if of_reg nr =? 39 then Resume 4242
       else Resume (2 ^ 64 - 38)).

(** FreeBSD on amd64 uses the same registers and numbers [exit] 1. *)
Definition freebsd_amd64 : Platform :=
  mkPlatform 1 (fun _ _ => Resume 78).

Definition boot_regs : Regs := mkRegs 0 0 0.

Definition main_returning (v : Z) : ProgramLogic :=
  fun _ => MainReturns [] (mkRegs 0 0 0) v.

(** A program logic that writes twice and leaves the registers dirty. *)
Definition main_chatty (v : Z) : ProgramLogic :=
  fun rs => MainReturns [1; 2] (mkRegs 11 (rdi rs + 22) 33) v.

Definition main_spinning : ProgramLogic :=
  fun _ => MainNeverReturns [7].

(** * Properties *)

(** Unfolds the updates of the machine and normalises the result. *)
Ltac machine_simpl :=
  unfold set_stat, log, log_all, set_reg, place_arg; simpl.

Arguments to_reg : simpl never.
Arguments of_reg : simpl never.
Arguments exit_status : simpl never.

(** ** Integers and registers *)

Lemma to_reg_range v : 0 <= to_reg v < 2 ^ 32.
Proof. unfold to_reg. apply Z.mod_pos_bound. lia. Qed.

Lemma of_to_reg v : in_int v -> of_reg (to_reg v) = v.
Proof.
  unfold in_int, int_min, int_max, of_reg, to_reg. intros Hv.
  rewrite Z.mod_mod by lia.
  destruct (Z.leb_spec 0 v) as [Hpos | Hneg].
  - rewrite Z.mod_small by lia.
    destruct (Z.ltb_spec v (2 ^ 31)); lia.
  - replace (v mod 2 ^ 32) with (v + 2 ^ 32).
    + destruct (Z.ltb_spec (v + 2 ^ 32) (2 ^ 31)); lia.
    + apply Z.mod_unique with (q := -1); lia.
Qed.

Lemma of_reg_range r : in_int (of_reg r).
Proof.
  unfold in_int, int_min, int_max, of_reg.
  pose proof (Z.mod_pos_bound r (2 ^ 32) ltac:(lia)) as Hlo.
  destruct (Z.ltb_spec (r mod 2 ^ 32) (2 ^ 31)); lia.
Qed.

Lemma of_to_reg_idem v : of_reg (to_reg (of_reg (to_reg v))) = of_reg (to_reg v).
Proof. apply of_to_reg. apply of_reg_range. Qed.

Lemma exit_status_mod a : exit_status a = a mod 2 ^ 8.
Proof.
  unfold exit_status. change 255 with (Z.ones 8).
  apply Z.land_ones. lia.
Qed.

Lemma exit_status_to_reg v : exit_status (to_reg v) = v mod 2 ^ 8.
Proof.
  rewrite exit_status_mod. unfold to_reg.
  apply Z.mod_mod_divide. exists (2 ^ 24). reflexivity.
Qed.

Lemma exit_status_range a : 0 <= exit_status a < 2 ^ 8.
Proof. rewrite exit_status_mod. apply Z.mod_pos_bound. lia. Qed.

(** ** The kernel *)

Lemma kernel_exit P nr a1 :
  of_reg nr = SYS_exit P -> kernel P nr a1 = Destroy (exit_status a1).
Proof. unfold kernel. intros ->. now rewrite Z.eqb_refl. Qed.

Lemma kernel_other P nr a1 :
  of_reg nr <> SYS_exit P -> kernel P nr a1 = other_syscall P nr a1.
Proof.
  unfold kernel. intros Hne.
  destruct (Z.eqb_spec (of_reg nr) (SYS_exit P)); congruence.
Qed.

(** ** The traces of [call_exit] and of a whole run *)

Lemma call_exit_destroyed P code num m st :
  running m = true ->
  kernel P (to_reg num) (to_reg code) = Destroy st ->
  call_exit P code num m =
    mkMachine (mkRegs (to_reg num) (to_reg code) (to_reg num))
              (trace m ++ upto_trap code num ++ [Death st])
              (Exited st).
Proof.
  destruct m as [rs tr s]. unfold running. simpl. intros Hrun Hk.
  destruct s; try discriminate.
  unfold call_exit, running, exec_instr; simpl.
  unfold exec_instr, running; simpl. rewrite Hk.
  machine_simpl. unfold upto_trap. now rewrite <- !app_assoc.
Qed.

Lemma call_exit_resumed P code num m result :
  running m = true ->
  kernel P (to_reg num) (to_reg code) = Resume result ->
  call_exit P code num m =
    mkMachine (mkRegs result (to_reg code) (to_reg num))
              (trace m ++ upto_trap code num ++ [Ret F_call_exit None])
              Running.
Proof.
  destruct m as [rs tr s]. unfold running. simpl. intros Hrun Hk.
  destruct s; try discriminate.
  unfold call_exit, running, exec_instr; simpl.
  unfold exec_instr, running; simpl. rewrite Hk.
  machine_simpl. unfold upto_trap. now rewrite <- !app_assoc.
Qed.

Lemma run_main_returns_any P main boot effects clobbered v :
  in_int (SYS_exit P) ->
  main boot = MainReturns effects clobbered v ->
  run P main boot =
    mkMachine (mkRegs (to_reg (SYS_exit P)) (to_reg (main_value v))
                      (to_reg (SYS_exit P)))
              (upto_return effects v ++ upto_trap (main_value v) (SYS_exit P)
                 ++ [Death (exit_status (to_reg (main_value v)))])
              (Exited (exit_status (to_reg (main_value v)))).
Proof.
  intros HP Hmain.
  unfold run, _start, call_main. simpl. rewrite Hmain. simpl.
  fold (main_value v).
  rewrite (call_exit_destroyed P (main_value v) (SYS_exit P) _
             (exit_status (to_reg (main_value v)))).
  - machine_simpl. unfold upto_return. simpl. now rewrite <- !app_assoc.
  - reflexivity.
  - apply kernel_exit. now apply of_to_reg.
Qed.

Lemma run_main_returns P main boot effects clobbered v :
  in_int (SYS_exit P) ->
  main boot = MainReturns effects clobbered v ->
  in_int v ->
  run P main boot =
    mkMachine (mkRegs (to_reg (SYS_exit P)) (to_reg v) (to_reg (SYS_exit P)))
              (upto_return effects v ++ upto_trap v (SYS_exit P)
                 ++ [Death (v mod 2 ^ 8)])
              (Exited (v mod 2 ^ 8)).
Proof.
  intros HP Hmain Hv.
  rewrite (run_main_returns_any P main boot effects clobbered v HP Hmain).
  unfold main_value. rewrite (of_to_reg v Hv).
  now rewrite exit_status_to_reg.
Qed.

Lemma run_main_never_returns P main boot effects :
  main boot = MainNeverReturns effects ->
  run P main boot =
    mkMachine boot (Call F_main [] :: map Effect effects) InMain.
Proof.
  intros Hmain. unfold run, _start, call_main. simpl. now rewrite Hmain.
Qed.

(** ** Exit status *)

(** C1: whenever the program logic returns the [int] [v], the process ends
    and the exit status observed after [_start] ran is [v] modulo [2^8];
    it is [v] itself when [v] is a status (between 0 and 255), and it is 42
    when [main] returns 42. *)
Theorem exit_status_is_main_result P main boot effects clobbered v :
  in_int (SYS_exit P) ->
  main boot = MainReturns effects clobbered v ->
  in_int v ->
  observed_exit_status (run P main boot) = Some (v mod 2 ^ 8)
  /\ (0 <= v < 2 ^ 8 -> observed_exit_status (run P main boot) = Some v)
  /\ (v = 42 -> observed_exit_status (run P main boot) = Some 42).
Proof.
  intros HP Hmain Hv.
  assert (Hobs : observed_exit_status (run P main boot) = Some (v mod 2 ^ 8)).
  { rewrite (run_main_returns P main boot effects clobbered v HP Hmain Hv).
    reflexivity. }
  split; [exact Hobs | split].
  - intros Hst. rewrite Hobs. f_equal. apply Z.mod_small. exact Hst.
  - intros ->. exact Hobs.
Qed.

Lemma exit_status_is_main_result_witness :
  observed_exit_status (run linux_x86_64 (main_chatty 42) boot_regs)
    = Some (42 mod 2 ^ 8)
  /\ observed_exit_status (run linux_x86_64 (main_chatty 42) boot_regs)
     = Some 42.
Proof.
  assert (HP : in_int (SYS_exit linux_x86_64))
    by (unfold in_int, int_min, int_max; simpl; lia).
  assert (Hv : in_int 42) by (unfold in_int, int_min, int_max; lia).
  destruct (exit_status_is_main_result linux_x86_64 (main_chatty 42) boot_regs
              [1; 2] (mkRegs 11 22 33) 42 HP eq_refl Hv)
    as (Hmod & _ & H42).
  split; [exact Hmod | exact (H42 eq_refl)].
Defined.

(** C6: when the program logic returns a negative value the observed exit
    status is its wrapped representation, a status between 0 and 255 that
    differs from the value by a multiple of 256; for -1 it is 255. *)
Theorem negative_result_wraps P main boot effects clobbered v :
  in_int (SYS_exit P) ->
  main boot = MainReturns effects clobbered v ->
  in_int v ->
  v < 0 ->
  exists st,
    observed_exit_status (run P main boot) = Some st
    /\ 0 <= st < 2 ^ 8
    /\ st = v mod 2 ^ 8
    /\ (v = -1 -> st = 255).
Proof.
  intros HP Hmain Hv Hneg. exists (v mod 2 ^ 8).
  rewrite (run_main_returns P main boot effects clobbered v HP Hmain Hv).
  repeat split.
  - apply Z.mod_pos_bound. lia.
  - apply Z.mod_pos_bound. lia.
  - intros ->. reflexivity.
Qed.

Lemma negative_result_wraps_witness :
  exists st,
    observed_exit_status (run linux_x86_64 (main_returning (-1)) boot_regs)
      = Some st
    /\ 0 <= st < 2 ^ 8
    /\ st = (-1) mod 2 ^ 8
    /\ st = 255.
Proof.
  assert (HP : in_int (SYS_exit linux_x86_64))
    by (unfold in_int, int_min, int_max; simpl; lia).
  assert (Hv : in_int (-1)) by (unfold in_int, int_min, int_max; lia).
  assert (Hneg : -1 < 0) by lia.
  destruct (negative_result_wraps linux_x86_64 (main_returning (-1)) boot_regs
              [] (mkRegs 0 0 0) (-1) HP eq_refl Hv Hneg)
    as (st & Hobs & Hrange & Hmod & Hone).
  exists st.
  split; [exact Hobs | split; [exact Hrange | split; [exact Hmod | ]]].
  exact (Hone eq_refl).
Defined.

(** ** The termination invoker *)

(** C2: for every pair of [int] arguments of [call_exit], the calling
    convention has put [code] in the register of the kernel's first
    argument; the only instructions [call_exit] runs are the copy of the
    register of [exit_syscall_num] into the register of the call number and
    the trap, which leave the first register alone; so the kernel services,
    once, call number [exit_syscall_num] with first argument [code]. *)
Theorem call_exit_copies_number_and_traps P code exit_syscall_num m :
  running m = true ->
  in_int code ->
  in_int exit_syscall_num ->
  sysv_arg 0 = Some syscall_arg1_reg
  /\ get syscall_arg1_reg
       (regs (place_arg 1 exit_syscall_num (place_arg 0 code m))) = to_reg code
  /\ exists second added,
       sysv_arg 1 = Some second
       /\ trace (call_exit P code exit_syscall_num m) = trace m ++ added
       /\ executed added = [Mov second syscall_nr_reg; Syscall]
       /\ In (Trap (to_reg exit_syscall_num) (to_reg code)) added
       /\ serviced added = [(exit_syscall_num, code)].
Proof.
  intros Hrun Hcode Hnum.
  split; [reflexivity | split; [reflexivity | ]].
  exists RSI.
  destruct (kernel P (to_reg exit_syscall_num) (to_reg code)) as [res | st] eqn:Hk.
  - exists (upto_trap code exit_syscall_num ++ [Ret F_call_exit None]).
    rewrite (call_exit_resumed P code exit_syscall_num m res Hrun Hk).
    simpl. rewrite !of_to_reg by assumption. intuition.
  - exists (upto_trap code exit_syscall_num ++ [Death st]).
    rewrite (call_exit_destroyed P code exit_syscall_num m st Hrun Hk).
    simpl. rewrite !of_to_reg by assumption. intuition.
Qed.

Lemma call_exit_copies_number_and_traps_witness :
  sysv_arg 0 = Some syscall_arg1_reg
  /\ get syscall_arg1_reg
       (regs (place_arg 1 39 (place_arg 0 (-5) (loaded boot_regs))))
     = to_reg (-5)
  /\ exists second added,
       sysv_arg 1 = Some second
       /\ trace (call_exit linux_x86_64 (-5) 39 (loaded boot_regs))
          = trace (loaded boot_regs) ++ added
       /\ executed added = [Mov second syscall_nr_reg; Syscall]
       /\ In (Trap (to_reg 39) (to_reg (-5))) added
       /\ serviced added = [(39, -5)].
Proof.
  apply (call_exit_copies_number_and_traps linux_x86_64 (-5) 39
           (loaded boot_regs)).
  - reflexivity.
  - unfold in_int, int_min, int_max. lia.
  - unfold in_int, int_min, int_max. lia.
Defined.

(** ** Lists of events *)

Lemma filter_effects (p : event -> bool) (l : list Z) (rest : list event) :
  (forall x, p (Effect x) = false) ->
  filter p (map Effect l ++ rest) = filter p rest.
Proof.
  intros Hp. induction l as [| x l IH]; simpl.
  - reflexivity.
  - now rewrite Hp.
Qed.

Lemma precedes_effects (p q : event -> bool) (l : list Z) rest seen :
  (forall x, p (Effect x) = false) ->
  (forall x, q (Effect x) = false) ->
  precedes p q (map Effect l ++ rest) seen = precedes p q rest seen.
Proof.
  intros Hp Hq. induction l as [| x l IH]; simpl.
  - reflexivity.
  - now rewrite Hp, Hq, orb_false_r.
Qed.

Lemma no_trap_upto_return effects v e :
  In e (upto_return effects v) -> is_trap e = false.
Proof.
  unfold upto_return. simpl. rewrite in_app_iff, in_map_iff. simpl.
  intros [<- | [[x [<- _]] | [<- | []]]]; reflexivity.
Qed.

(** A trace with a single trap splits around it in one way only. *)
Lemma split_at_only_trap (front : list event) x y back :
  (forall e, In e front -> is_trap e = false) ->
  (forall e, In e back -> is_trap e = false) ->
  forall before nr a1 after,
    front ++ Trap x y :: back = before ++ Trap nr a1 :: after ->
    before = front /\ nr = x /\ a1 = y /\ after = back.
Proof.
  intros Hfront Hback.
  induction front as [| a front IH]; intros before nr a1 after Heq.
  - destruct before as [| b before]; simpl in Heq.
    + injection Heq as -> -> ->. auto.
    + injection Heq as <- Hback'.
      assert (Hin : In (Trap nr a1) back)
        by (rewrite Hback'; apply in_elt).
      apply Hback in Hin. discriminate.
  - destruct before as [| b before]; simpl in Heq.
    + injection Heq as -> _.
      assert (Hbad : is_trap (Trap nr a1) = false)
        by (apply Hfront; now left).
      discriminate.
    + injection Heq as <- Heq.
      destruct (IH (fun e He => Hfront e (or_intror He))
                  before nr a1 after Heq) as (-> & -> & -> & ->).
      auto.
Qed.

(** ** The entry trampoline *)



(** ** No return from the termination call *)

(** C4: in every execution, wherever the trace shows the trap, the only
    thing after it is the death of the process with the status of the
    trap's argument: no instruction of [call_exit] or [_start] runs, no
    function returns, no further system call and no other observable
    action happen. *)
Theorem nothing_follows_the_trap P main boot before nr a1 after :
  in_int (SYS_exit P) ->
  trace (run P main boot) = before ++ Trap nr a1 :: after ->
  after = [Death (exit_status a1)]
  /\ stat (run P main boot) = Exited (exit_status a1)
  /\ executed after = []
  /\ serviced after = []
  /\ filter is_effect after = [].
Proof.
  intros HP Hsplit.
  destruct (main boot) as [effects clobbered v | effects] eqn:Hmain.
  - assert (Htr : trace (run P main boot)
                  = (upto_return effects v
                       ++ [Call F_call_exit [main_value v; SYS_exit P];
                           Exec (Mov RSI RAX); Exec Syscall])
                    ++ Trap (to_reg (SYS_exit P)) (to_reg (main_value v))
                       :: [Death (exit_status (to_reg (main_value v)))]).
    { rewrite (run_main_returns_any P main boot effects clobbered v HP Hmain).
      cbn [trace]. now rewrite <- app_assoc. }
    rewrite Htr in Hsplit.
    rewrite (run_main_returns_any P main boot effects clobbered v HP Hmain).
    cbn [stat].
    apply split_at_only_trap in Hsplit.
    + destruct Hsplit as (_ & _ & -> & ->). repeat split.
    + intros e. rewrite in_app_iff. intros [Hin | Hin].
      * now apply no_trap_upto_return in Hin.
      * simpl in Hin. destruct Hin as [<- | [<- | [<- | []]]]; reflexivity.
    + intros e [<- | []]. reflexivity.
  - rewrite (run_main_never_returns P main boot effects Hmain) in Hsplit.
    simpl in Hsplit.
    assert (Hin : In (Trap nr a1) (Call F_main [] :: map Effect effects))
      by (rewrite Hsplit; apply in_elt).
    simpl in Hin. rewrite in_map_iff in Hin.
    destruct Hin as [Hbad | [x [Hbad _]]]; discriminate.
Qed.

Lemma nothing_follows_the_trap_witness :
  [Death 42] = [Death (exit_status 42)]
  /\ stat (run linux_x86_64 (main_returning 42) boot_regs)
     = Exited (exit_status 42)
  /\ executed [Death 42] = []
  /\ serviced [Death 42] = []
  /\ filter is_effect [Death 42] = [].
Proof.
  apply (nothing_follows_the_trap linux_x86_64 (main_returning 42) boot_regs
           [Call F_main []; Ret F_main (Some 42); Call F_call_exit [42; 60];
            Exec (Mov RSI RAX); Exec Syscall]
           60 42 [Death 42]).
  - unfold in_int, int_min, int_max. simpl. lia.
  - reflexivity.
Defined.

(** The trap is what ends the run: with a call number the kernel answers,
    [call_exit] goes on after the trap and returns to its caller. *)
Example call_exit_returns_from_getpid :
  call_exit linux_x86_64 5 39 (loaded boot_regs) =
    mkMachine (mkRegs 4242 5 39)
              [Call F_call_exit [5; 39]; Exec (Mov RSI RAX); Exec Syscall;
               Trap 39 5; Ret F_call_exit None]
              Running.
Proof. reflexivity. Qed.

(** ** Order of the steps *)

(** C5: in every execution the call of [main] comes strictly before the
    call of [call_exit], that call strictly before the trap and the trap
    strictly before the death of the process; when [main] returns, the
    trace is the call of [main], its own actions and its return followed
    at once by the termination call, the two instructions, the trap and
    the death, nothing else in between or after. *)
Theorem main_then_termination_then_death P main boot :
  in_int (SYS_exit P) ->
  precedes (is_call F_main) (is_call F_call_exit)
           (trace (run P main boot)) false = true
  /\ precedes (is_call F_call_exit) is_trap (trace (run P main boot)) false = true
  /\ precedes is_trap is_death (trace (run P main boot)) false = true
  /\ (forall effects clobbered v,
        main boot = MainReturns effects clobbered v ->
        in_int v ->
        trace (run P main boot)
        = Call F_main [] :: map Effect effects
            ++ [Ret F_main (Some v);
                Call F_call_exit [v; SYS_exit P];
                Exec (Mov RSI RAX); Exec Syscall;
                Trap (to_reg (SYS_exit P)) (to_reg v);
                Death (v mod 2 ^ 8)]).
Proof.
  intros HP.
  destruct (main boot) as [effects clobbered v | effects] eqn:Hmain.
  - rewrite (run_main_returns_any P main boot effects clobbered v HP Hmain).
    unfold upto_return. simpl. rewrite <- !app_assoc.
    rewrite !precedes_effects by reflexivity.
    repeat split.
    intros effects' clobbered' v' Heq Hv'.
    injection Heq as <- <- <-.
    unfold main_value. rewrite (of_to_reg v Hv').
    now rewrite exit_status_to_reg.
  - rewrite (run_main_never_returns P main boot effects Hmain). simpl.
    rewrite <- (app_nil_r (map Effect effects)).
    rewrite !precedes_effects by reflexivity.
    repeat split. intros effects' clobbered' v' Heq. discriminate.
Qed.

Lemma main_then_termination_then_death_witness :
  precedes (is_call F_main) (is_call F_call_exit)
           (trace (run linux_x86_64 (main_chatty 9) boot_regs)) false = true
  /\ precedes (is_call F_call_exit) is_trap
              (trace (run linux_x86_64 (main_chatty 9) boot_regs)) false = true
  /\ precedes is_trap is_death
              (trace (run linux_x86_64 (main_chatty 9) boot_regs)) false = true
  /\ trace (run linux_x86_64 (main_chatty 9) boot_regs)
     = [Call F_main []; Effect 1; Effect 2; Ret F_main (Some 9);
        Call F_call_exit [9; 60]; Exec (Mov RSI RAX); Exec Syscall;
        Trap 60 9; Death 9].
Proof.
  assert (HP : in_int (SYS_exit linux_x86_64))
    by (unfold in_int, int_min, int_max; simpl; lia).
  assert (Hv : in_int 9) by (unfold in_int, int_min, int_max; lia).
  destruct (main_then_termination_then_death linux_x86_64 (main_chatty 9)
              boot_regs HP) as (H1 & H2 & H3 & H4).
  split; [exact H1 | split; [exact H2 | split; [exact H3 | ]]].
  exact (H4 [1; 2] (mkRegs 11 22 33) 9 eq_refl Hv).
Defined.

(** ** One termination request *)




(** ** No error handling *)

Lemma filter_own_effects (l : list Z) (rest : list event) :
  filter is_effect (map Effect l ++ rest)
  = map Effect l ++ filter is_effect rest.
Proof.
  induction l as [| x l IH]; simpl; [reflexivity | now f_equal].
Qed.

(** C8: whatever the arguments and whatever the kernel answers,
    [call_exit] traps once and never again, performs no observable action
    of its own and, if the kernel hands control back, returns to its caller
    without a value and without looking at the kernel's answer; a run of
    [_start] shows no observable action but those of the program logic and
    ends either dead with a status or inside the program logic, never in a
    state that reports an error. *)
Theorem no_error_path P code exit_syscall_num m main boot :
  running m = true ->
  in_int (SYS_exit P) ->
  (exists added,
      trace (call_exit P code exit_syscall_num m) = trace m ++ added
      /\ length (filter is_trap added) = 1%nat
      /\ filter is_effect added = []
      /\ (forall f v, In (Ret f v) added -> f = F_call_exit /\ v = None)
      /\ (forall result,
            kernel P (to_reg exit_syscall_num) (to_reg code) = Resume result ->
            added = upto_trap code exit_syscall_num ++ [Ret F_call_exit None]))
  /\ filter is_effect (trace (run P main boot))
     = map Effect (main_effects (main boot))
  /\ (length (filter is_trap (trace (run P main boot))) <= 1)%nat
  /\ (forall f v, In (Ret f v) (trace (run P main boot)) -> f = F_main)
  /\ (stat (run P main boot) = InMain
      \/ exists st, stat (run P main boot) = Exited st).
Proof.
  intros Hrun HP. split.
  - destruct (kernel P (to_reg exit_syscall_num) (to_reg code))
      as [res | st] eqn:Hk.
    + exists (upto_trap code exit_syscall_num ++ [Ret F_call_exit None]).
      rewrite (call_exit_resumed P code exit_syscall_num m res Hrun Hk).
      simpl.
      split; [reflexivity | split; [reflexivity | split; [reflexivity | split]]].
      * intros f r Hin.
        destruct Hin as [Hbad | [Hbad | [Hbad | [Hbad | [Heq | []]]]]];
          try discriminate. now injection Heq as <- <-.
      * intros result _. reflexivity.
    + exists (upto_trap code exit_syscall_num ++ [Death st]).
      rewrite (call_exit_destroyed P code exit_syscall_num m st Hrun Hk).
      simpl.
      split; [reflexivity | split; [reflexivity | split; [reflexivity | split]]].
      * intros f r Hin.
        destruct Hin as [Hbad | [Hbad | [Hbad | [Hbad | [Hbad | []]]]]];
          discriminate.
      * intros result Hbad. discriminate.
  - destruct (main boot) as [effects clobbered v | effects] eqn:Hmain.
    + rewrite (run_main_returns_any P main boot effects clobbered v HP Hmain).
      unfold upto_return. simpl. rewrite <- !app_assoc.
      rewrite (filter_effects is_trap) by reflexivity.
      rewrite filter_own_effects. simpl. rewrite app_nil_r.
      split; [reflexivity | split; [lia | split]].
      * intros f r Hin. rewrite in_app_iff, in_map_iff in Hin. simpl in Hin.
        destruct Hin as [Hbad | [[x [Hbad _]] | Hin]]; try discriminate.
        destruct Hin as [Heq | [Hbad | [Hbad | [Hbad | [Hbad | [Hbad | []]]]]]];
          try discriminate. now injection Heq as <- _.
      * right. now eexists.
    + rewrite (run_main_never_returns P main boot effects Hmain). simpl.
      rewrite <- (app_nil_r (map Effect effects)).
      rewrite (filter_effects is_trap) by reflexivity.
      rewrite filter_own_effects. simpl. rewrite !app_nil_r.
      split; [reflexivity | split; [lia | split]].
      * intros f r Hin. rewrite in_map_iff in Hin.
        destruct Hin as [Hbad | [x [Hbad _]]]; discriminate.
      * now left.
Qed.

Lemma no_error_path_witness :
  (exists added,
      trace (call_exit linux_x86_64 0 (-1) (loaded boot_regs))
      = trace (loaded boot_regs) ++ added
      /\ length (filter is_trap added) = 1%nat
      /\ filter is_effect added = []
      /\ added = upto_trap 0 (-1) ++ [Ret F_call_exit None])
  /\ filter is_effect (trace (run linux_x86_64 main_spinning boot_regs))
     = map Effect (main_effects (main_spinning boot_regs))
  /\ (length (filter is_trap
                (trace (run linux_x86_64 main_spinning boot_regs))) <= 1)%nat
  /\ (stat (run linux_x86_64 main_spinning boot_regs) = InMain
      \/ exists st,
           stat (run linux_x86_64 main_spinning boot_regs) = Exited st).
Proof.
  assert (HP : in_int (SYS_exit linux_x86_64))
    by (unfold in_int, int_min, int_max; simpl; lia).
  destruct (no_error_path linux_x86_64 0 (-1) (loaded boot_regs)
              main_spinning boot_regs eq_refl HP)
    as ((added & Htrace & Honce & Hquiet & _ & Hresume)
        & Heffects & Htraps & _ & Hend).
  split; [ | split; [exact Heffects | split; [exact Htraps | exact Hend]]].
  exists added.
  split; [exact Htrace | split; [exact Honce | split; [exact Hquiet | ]]].
  exact (Hresume (2 ^ 64 - 38) eq_refl).
Defined.

(** The kernel refuses call number -1; [call_exit] just returns. *)
Example call_exit_ignores_refusal :
  call_exit linux_x86_64 0 (-1) (loaded boot_regs) =
    mkMachine (mkRegs (2 ^ 64 - 38) 0 (2 ^ 32 - 1))
              [Call F_call_exit [0; -1]; Exec (Mov RSI RAX); Exec Syscall;
               Trap (2 ^ 32 - 1) 0; Ret F_call_exit None]
              Running.
Proof. reflexivity. Qed.

(** ** The selector *)

(** C9: the selector [_start] hands to [call_exit], and the call number the
    kernel then reads, is the [SYS_exit] of the platform the program is
    built for, whatever its value: the embedding of [_start] has no number
    of its own. *)
Theorem selector_is_the_platform_constant P main boot effects clobbered v :
  in_int (SYS_exit P) ->
  main boot = MainReturns effects clobbered v ->
  filter (is_call F_call_exit) (trace (run P main boot))
    = [Call F_call_exit [main_value v; SYS_exit P]]
  /\ map fst (serviced (trace (run P main boot))) = [SYS_exit P]
  /\ get syscall_nr_reg (regs (run P main boot)) = to_reg (SYS_exit P)
  /\ exists st, stat (run P main boot) = Exited st.
Proof.
  intros HP Hmain.
  rewrite (run_main_returns_any P main boot effects clobbered v HP Hmain).
  unfold upto_return. cbn [trace regs stat get syscall_nr_reg rax].
  rewrite <- !app_comm_cons, <- !app_assoc.
  split; [ | split; [ | split; [reflexivity | now eexists]]].
  - simpl. now rewrite filter_effects.
  - simpl. induction effects as [| x l IH] in |- *; simpl.
    + now rewrite (of_to_reg _ HP).
    + exact IH.
Qed.

Lemma selector_is_the_platform_constant_witness :
  filter (is_call F_call_exit)
         (trace (run freebsd_amd64 (main_returning 5) boot_regs))
    = [Call F_call_exit [main_value 5; SYS_exit freebsd_amd64]]
  /\ map fst (serviced (trace (run freebsd_amd64 (main_returning 5) boot_regs)))
     = [SYS_exit freebsd_amd64]
  /\ get syscall_nr_reg (regs (run freebsd_amd64 (main_returning 5) boot_regs))
     = to_reg (SYS_exit freebsd_amd64)
  /\ exists st, stat (run freebsd_amd64 (main_returning 5) boot_regs) = Exited st.
Proof.
  apply (selector_is_the_platform_constant freebsd_amd64 (main_returning 5)
           boot_regs [] (mkRegs 0 0 0) 5).
  - unfold in_int, int_min, int_max. simpl. lia.
  - reflexivity.
Defined.

(** The same source issues call 60 on Linux and call 1 on FreeBSD. *)
Example selector_on_two_platforms :
  serviced (trace (run linux_x86_64 (main_returning 5) boot_regs)) = [(60, 5)]
  /\ serviced (trace (run freebsd_amd64 (main_returning 5) boot_regs)) = [(1, 5)].
Proof. split; reflexivity. Qed.

(** ** Determinism *)

(** C10: two executions on the same platform in which the program logic
    returns the same value issue the same system call, with the same number
    and the same argument, and show the same exit status, whatever else the
    program logic did, whatever it left in the registers and whatever the
    loader had put there. *)
Theorem exit_depends_only_on_main_result
        P main1 main2 boot1 boot2 effects1 effects2 clobbered1 clobbered2 v :
  in_int (SYS_exit P) ->
  main1 boot1 = MainReturns effects1 clobbered1 v ->
  main2 boot2 = MainReturns effects2 clobbered2 v ->
  filter is_trap (trace (run P main1 boot1))
    = filter is_trap (trace (run P main2 boot2))
  /\ serviced (trace (run P main1 boot1)) = serviced (trace (run P main2 boot2))
  /\ observed_exit_status (run P main1 boot1)
     = observed_exit_status (run P main2 boot2)
  /\ exists st, observed_exit_status (run P main1 boot1) = Some st.
Proof.
  intros HP Hmain1 Hmain2.
  rewrite (run_main_returns_any P main1 boot1 effects1 clobbered1 v HP Hmain1).
  rewrite (run_main_returns_any P main2 boot2 effects2 clobbered2 v HP Hmain2).
  unfold upto_return. cbn [trace stat observed_exit_status].
  rewrite <- !app_comm_cons, <- !app_assoc.
  assert (Hserv : forall l rest, serviced (map Effect l ++ rest) = serviced rest).
  { intros l rest. induction l as [| x l IH]; simpl; auto. }
  split; [ | split; [ | split; [reflexivity | now eexists]]].
  - simpl. now rewrite !filter_effects.
  - simpl. now rewrite !Hserv.
Qed.

Lemma exit_depends_only_on_main_result_witness :
  filter is_trap (trace (run linux_x86_64 (main_chatty (-7)) boot_regs))
    = filter is_trap
        (trace (run linux_x86_64 (main_returning (-7)) (mkRegs 1 2 3)))
  /\ serviced (trace (run linux_x86_64 (main_chatty (-7)) boot_regs))
     = serviced (trace (run linux_x86_64 (main_returning (-7)) (mkRegs 1 2 3)))
  /\ observed_exit_status (run linux_x86_64 (main_chatty (-7)) boot_regs)
     = observed_exit_status
         (run linux_x86_64 (main_returning (-7)) (mkRegs 1 2 3))
  /\ exists st,
       observed_exit_status (run linux_x86_64 (main_chatty (-7)) boot_regs)
       = Some st.
Proof.
  apply (exit_depends_only_on_main_result linux_x86_64
           (main_chatty (-7)) (main_returning (-7)) boot_regs (mkRegs 1 2 3)
           [1; 2] [] (mkRegs 11 22 33) (mkRegs 0 0 0) (-7)).
  - unfold in_int, int_min, int_max. simpl. lia.
  - reflexivity.
  - reflexivity.
Defined.

(** * Further properties of the two functions *)

(** ** [call_exit] as a general trap *)

(** [call_exit] comes back to its caller exactly when the kernel resumes
    the trap.  It then leaves the kernel's answer in [%rax], which its
    [void] type drops, and its two arguments where the call had put them.
    When the kernel destroys the process the status is the kernel's, and
    with the selector [SYS_exit] that is the case for every [code]. *)
Theorem call_exit_returns_iff_resumed P code exit_syscall_num m :
  running m = true ->
  (running (call_exit P code exit_syscall_num m) = true
   <-> exists result,
         kernel P (to_reg exit_syscall_num) (to_reg code) = Resume result)
  /\ (forall result,
        kernel P (to_reg exit_syscall_num) (to_reg code) = Resume result ->
        regs (call_exit P code exit_syscall_num m)
        = mkRegs result (to_reg code) (to_reg exit_syscall_num))
  /\ (forall st,
        kernel P (to_reg exit_syscall_num) (to_reg code) = Destroy st ->
        stat (call_exit P code exit_syscall_num m) = Exited st)
  /\ (in_int exit_syscall_num ->
      exit_syscall_num = SYS_exit P ->
      stat (call_exit P code exit_syscall_num m)
      = Exited (exit_status (to_reg code))).
Proof.
  intros Hrun.
  destruct (kernel P (to_reg exit_syscall_num) (to_reg code))
    as [res | st] eqn:Hk.
  - rewrite (call_exit_resumed P code exit_syscall_num m res Hrun Hk).
    split; [ | split; [ | split]].
    + split; [intros _; now exists res | reflexivity].
    + intros result Heq. now injection Heq as ->.
    + intros st Hbad. discriminate.
    + intros Hnum ->.
      rewrite kernel_exit in Hk by now apply of_to_reg.
      discriminate.
  - rewrite (call_exit_destroyed P code exit_syscall_num m st Hrun Hk).
    split; [ | split; [ | split]].
    + split; [discriminate | intros [result Hbad]; discriminate].
    + intros result Hbad. discriminate.
    + intros st' Heq. now injection Heq as ->.
    + intros Hnum ->.
      rewrite kernel_exit in Hk by now apply of_to_reg.
      now injection Hk as <-.
Qed.

Lemma call_exit_returns_iff_resumed_witness :
  running (call_exit linux_x86_64 5 39 (loaded boot_regs)) = true
  /\ regs (call_exit linux_x86_64 5 39 (loaded boot_regs))
     = mkRegs 4242 (to_reg 5) (to_reg 39)
  /\ stat (call_exit linux_x86_64 (-2) 231 (loaded boot_regs))
     = Exited (exit_status (to_reg (-2)))
  /\ stat (call_exit linux_x86_64 300 60 (loaded boot_regs))
     = Exited (exit_status (to_reg 300)).
Proof.
  destruct (call_exit_returns_iff_resumed linux_x86_64 5 39
              (loaded boot_regs) eq_refl) as (Hiff & Hregs & _ & _).
  destruct (call_exit_returns_iff_resumed linux_x86_64 (-2) 231
              (loaded boot_regs) eq_refl) as (_ & _ & Hdead & _).
  destruct (call_exit_returns_iff_resumed linux_x86_64 300 60
              (loaded boot_regs) eq_refl) as (_ & _ & _ & Hexit).
  split; [ | split; [ | split]].
  - apply Hiff. now exists 4242.
  - exact (Hregs 4242 eq_refl).
  - exact (Hdead (exit_status (to_reg (-2))) eq_refl).
  - apply Hexit; [unfold in_int, int_min, int_max; lia | reflexivity].
Defined.

(** Two calls of [call_exit] in a row.  After a call that ended the
    process a second call does nothing at all.  After a call the kernel
    answered, the second call is serviced with its own number and
    argument: the answer the first trap left in [%rax] does not reach the
    second trap, because the copy from [%rsi] overwrites it. *)
Theorem call_exit_twice P code1 num1 code2 num2 m :
  running m = true ->
  in_int code1 -> in_int num1 -> in_int code2 -> in_int num2 ->
  (forall st,
      kernel P (to_reg num1) (to_reg code1) = Destroy st ->
      call_exit P code2 num2 (call_exit P code1 num1 m)
      = call_exit P code1 num1 m)
  /\ (forall result,
        kernel P (to_reg num1) (to_reg code1) = Resume result ->
        exists added,
          trace (call_exit P code2 num2 (call_exit P code1 num1 m))
          = trace m ++ added
          /\ filter is_trap added
             = [Trap (to_reg num1) (to_reg code1);
                Trap (to_reg num2) (to_reg code2)]
          /\ serviced added = [(num1, code1); (num2, code2)]).
Proof.
  intros Hrun Hc1 Hn1 Hc2 Hn2. split.
  - intros st Hk.
    rewrite (call_exit_destroyed P code1 num1 m st Hrun Hk).
    reflexivity.
  - intros result Hk.
    rewrite (call_exit_resumed P code1 num1 m result Hrun Hk).
    destruct (kernel P (to_reg num2) (to_reg code2)) as [res2 | st2] eqn:Hk2.
    + exists (upto_trap code1 num1 ++ [Ret F_call_exit None]
              ++ upto_trap code2 num2 ++ [Ret F_call_exit None]).
      erewrite call_exit_resumed; [ | reflexivity | exact Hk2].
      cbn [trace]. rewrite <- !app_assoc. simpl.
      rewrite !of_to_reg by assumption. auto.
    + exists (upto_trap code1 num1 ++ [Ret F_call_exit None]
              ++ upto_trap code2 num2 ++ [Death st2]).
      erewrite call_exit_destroyed; [ | reflexivity | exact Hk2].
      cbn [trace]. rewrite <- !app_assoc. simpl.
      rewrite !of_to_reg by assumption. auto.
Qed.

Lemma call_exit_twice_witness :
  call_exit linux_x86_64 5 39 (call_exit linux_x86_64 1 60 (loaded boot_regs))
  = call_exit linux_x86_64 1 60 (loaded boot_regs)
  /\ exists added,
       trace (call_exit linux_x86_64 1 60
                (call_exit linux_x86_64 5 39 (loaded boot_regs)))
       = trace (loaded boot_regs) ++ added
       /\ filter is_trap added
          = [Trap (to_reg 39) (to_reg 5); Trap (to_reg 60) (to_reg 1)]
       /\ serviced added = [(39, 5); (60, 1)].
Proof.
  assert (H1 : in_int 1) by (unfold in_int, int_min, int_max; lia).
  assert (H5 : in_int 5) by (unfold in_int, int_min, int_max; lia).
  assert (H39 : in_int 39) by (unfold in_int, int_min, int_max; lia).
  assert (H60 : in_int 60) by (unfold in_int, int_min, int_max; lia).
  destruct (call_exit_twice linux_x86_64 1 60 5 39 (loaded boot_regs)
              eq_refl H1 H60 H5 H39) as (Hdead & _).
  destruct (call_exit_twice linux_x86_64 5 39 1 60 (loaded boot_regs)
              eq_refl H5 H39 H1 H60) as (_ & Hlive).
  split.
  - exact (Hdead (exit_status (to_reg 1)) eq_refl).
  - exact (Hlive 4242 eq_refl).
Defined.

(** ** Which results share an exit status *)

(** Two runs in which the program logic returns the [int] values [v] and
    [w] show the same exit status exactly when [v] and [w] agree modulo
    256, and a run shows status 0 exactly when the returned value is a
    multiple of 256: a result of 256 is observed as success. *)
Theorem same_status_iff_congruent
        P main1 main2 boot1 boot2 effects1 effects2 clobbered1 clobbered2 v w :
  in_int (SYS_exit P) ->
  in_int v -> in_int w ->
  main1 boot1 = MainReturns effects1 clobbered1 v ->
  main2 boot2 = MainReturns effects2 clobbered2 w ->
  (observed_exit_status (run P main1 boot1)
   = observed_exit_status (run P main2 boot2)
   <-> exists k, v = w + 256 * k)
  /\ (observed_exit_status (run P main1 boot1) = Some 0
      <-> exists k, v = 256 * k).
Proof.
  intros HP Hv Hw Hmain1 Hmain2.
  rewrite (run_main_returns P main1 boot1 effects1 clobbered1 v HP Hmain1 Hv).
  rewrite (run_main_returns P main2 boot2 effects2 clobbered2 w HP Hmain2 Hw).
  cbn [observed_exit_status stat].
  change (2 ^ 8) with 256.
  split; split.
  - intros Heq. injection Heq as Heq.
    exists (v / 256 - w / 256).
    pose proof (Z.div_mod v 256). pose proof (Z.div_mod w 256). lia.
  - intros [k ->]. f_equal.
    rewrite Z.mul_comm. apply Z.mod_add. lia.
  - intros Heq. injection Heq as Heq.
    exists (v / 256). pose proof (Z.div_mod v 256). lia.
  - intros [k ->]. f_equal.
    rewrite Z.mul_comm. apply Z.mod_mul. lia.
Qed.

Lemma same_status_iff_congruent_witness :
  observed_exit_status (run linux_x86_64 (main_chatty 256) boot_regs)
  = observed_exit_status (run linux_x86_64 (main_returning 0) (mkRegs 1 2 3))
  /\ observed_exit_status (run linux_x86_64 (main_chatty 256) boot_regs)
     = Some 0.
Proof.
  assert (HP : in_int (SYS_exit linux_x86_64))
    by (unfold in_int, int_min, int_max; simpl; lia).
  assert (H256 : in_int 256) by (unfold in_int, int_min, int_max; lia).
  assert (H0 : in_int 0) by (unfold in_int, int_min, int_max; lia).
  destruct (same_status_iff_congruent linux_x86_64
              (main_chatty 256) (main_returning 0) boot_regs (mkRegs 1 2 3)
              [1; 2] [] (mkRegs 11 22 33) (mkRegs 0 0 0) 256 0
              HP H256 H0 eq_refl eq_refl) as (Hsame & Hzero).
  split.
  - apply Hsame. exists 1. reflexivity.
  - apply Hzero. exists 1. reflexivity.
Defined.
